(** * create_test_image.py: the bookshelf fixture generator

    A shallow embedding of [src/create_test_image.py].  The script is a
    straight-line sequence of calls into the imaging library, so the model
    has two layers:

    - the parts of the imaging library the script calls ([ImageColor],
      [Image], [ImageDraw], [ImageFont]), restricted to the image mode and
      the file format the script uses, with the glyph rasteriser and the
      JPEG coder left abstract behind the [Backend] class;
    - the script itself, [main], written statement by statement in an
      exception-and-state monad over a [world] holding the image objects,
      the descriptor list, the working directory, standard output and a log
      of the library calls made.

    The model covers runs in an interpreter where the imaging library can be
    imported; what one run cannot control is collected in [environment]. *)

From Stdlib Require Import ZArith String Ascii List Lia Permutation.
From stdpp Require Import base option list strings gmap.
Import ListNotations.

Local Open Scope string_scope.
Local Open Scope list_scope.
Local Open Scope Z_scope.

(** * Part I: the model *)

(** ** Colours: [ImageColor.getrgb] *)

Definition rgb : Type := Z * Z * Z.

Module ImageColor.

(** [str.lower] on one ASCII character. *)
Definition lower_ascii (c : ascii) : ascii :=
  let n := N_of_ascii c in
  if ((65 <=? n) && (n <=? 90))%N then ascii_of_N (n + 32) else c.

Fixpoint lower (s : string) : string :=
  match s with
  | EmptyString => EmptyString
  | String c s' => String (lower_ascii c) (lower s')
  end.

(** One digit of [int(_, 16)] on an already lower-cased string. *)
Definition hex_digit (c : ascii) : option Z :=
  let n := Z.of_N (N_of_ascii c) in
  if (48 <=? n) && (n <=? 57) then Some (n - 48)
  else if (97 <=? n) && (n <=? 102) then Some (n - 87)
  else None.

Definition hex_byte (hi lo : ascii) : option Z :=
  h ← hex_digit hi; l ← hex_digit lo; Some (16 * h + l).

(** The [#rgb] and [#rrggbb] notations.  The functional notations
    ([rgb(...)], [hsl(...)]) and the forms with an alpha channel are not
    used by the script and are rejected here. *)
Definition of_hex (s : string) : option rgb :=
  match s with
  | String "#" (String r (String g (String b EmptyString))) =>
      r' ← hex_byte r r; g' ← hex_byte g g; b' ← hex_byte b b;
      Some (r', g', b')
  | String "#" (String r1 (String r2 (String g1 (String g2
      (String b1 (String b2 EmptyString)))))) =>
      r' ← hex_byte r1 r2; g' ← hex_byte g1 g2; b' ← hex_byte b1 b2;
      Some (r', g', b')
  | _ => None
  end.

(** The named colours (an excerpt of the library's table: the sixteen basic
    names). *)
Definition colormap : list (string * string) :=
  [ ("black", "#000000"); ("silver", "#c0c0c0"); ("gray", "#808080");
    ("white", "#ffffff"); ("maroon", "#800000"); ("red", "#ff0000");
    ("purple", "#800080"); ("fuchsia", "#ff00ff"); ("green", "#008000");
    ("lime", "#00ff00"); ("olive", "#808000"); ("yellow", "#ffff00");
    ("navy", "#000080"); ("blue", "#0000ff"); ("teal", "#008080");
    ("aqua", "#00ffff") ].

Fixpoint assoc (k : string) (l : list (string * string)) : option string :=
  match l with
  | [] => None
  | (k', v) :: l' => if String.eqb k k' then Some v else assoc k l'
  end.

(** [None] stands for the [ValueError] the library raises on a colour
    specifier it does not understand. *)
Definition getrgb (color : string) : option rgb :=
  let color := lower color in
  match assoc color colormap with
  | Some hex => of_hex hex
  | None => of_hex color
  end.

End ImageColor.

(** ** Raster images

    An image is its mode, its size and its rows of pixels, top row first.
    Pixel [(x, y)] is element [x] of row [y]. *)

Inductive mode := RGB.

Record image := Image_ {
  im_mode : mode;
  im_size : Z * Z;
  im_rows : list (list rgb)
}.

Definition box : Type := Z * Z * Z * Z.

(** Membership of pixel [(x, y)] in the box [[x0, y0, x1, y1]]: the drawing
    primitive treats both corners as inclusive. *)
Definition in_box (b : box) (x y : Z) : bool :=
  let '(x0, y0, x1, y1) := b in
  (x0 <=? x) && (x <=? x1) && (y0 <=? y) && (y <=? y1).

(** Apply [f x y] to every stored pixel.  Pixels outside the image do not
    exist, so every drawing operation built on [map_pixels] is clipped to the
    image. *)
Definition map_pixels (f : Z -> Z -> rgb -> rgb) (rows : list (list rgb))
  : list (list rgb) :=
  imap (fun y row => imap (fun x p => f (Z.of_nat x) (Z.of_nat y) p) row) rows.

Definition fill_box (b : box) (ink : rgb) (im : image) : image :=
  Image_ (im_mode im) (im_size im)
         (map_pixels (fun x y p => if in_box b x y then ink else p) (im_rows im)).

Definition getpixel (im : image) (x y : Z) : option rgb :=
  if (0 <=? x) && (0 <=? y)
  then row ← im_rows im !! Z.to_nat y; row !! Z.to_nat x
  else None.

(** The image is well formed when it stores exactly [height] rows of [width]
    pixels. *)
Definition well_formed (im : image) : Prop :=
  0 <= fst (im_size im) /\ 0 <= snd (im_size im) /\
  length (im_rows im) = Z.to_nat (snd (im_size im)) /\
  Forall (fun row => length row = Z.to_nat (fst (im_size im))) (im_rows im).

(** ** Fonts and the abstract backend *)

Inductive font :=
| FreeTypeFont (path : string) (size : Z)
| DefaultFont.

Inductive format := JPEG.

(** What is stored in a file written by [Image.save]: the container format,
    the quality setting that selected the quantisation tables, the frame
    size of the header, and the coded scan. *)
Record file := File_ {
  f_format : format;
  f_quality : Z;
  f_size : Z * Z;
  f_scan : list Z
}.

(** The two pieces of native code the script reaches through the library and
    that the model does not open up: the glyph rasteriser with its blending
    ([text_ink f s ink dx dy p] is the new value of a pixel holding [p] that
    lies [dx] to the right of and [dy] below the anchor of text [s] drawn in
    font [f] with colour [ink]) and the JPEG coder.  Both are functions: the
    same call on the same data gives the same result. *)
Class Backend := {
  text_ink : font -> string -> rgb -> Z -> Z -> rgb -> rgb;
  jpeg_scan : Z -> image -> list Z
}.

Definition draw_text `{Backend} (xy : Z * Z) (s : string) (ink : rgb) (f : font)
    (im : image) : image :=
  Image_ (im_mode im) (im_size im)
         (map_pixels (fun x y p => text_ink f s ink (x - fst xy) (y - snd xy) p)
                     (im_rows im)).

Definition encode `{Backend} (fmt : format) (quality : Z) (im : image) : file :=
  File_ fmt quality (im_size im) (jpeg_scan quality im).
(** ** The world the script runs in *)

Inductive exn :=
| OSError
| ImportError
| ValueError
| MemoryError
| KeyboardInterrupt
| OtherException (name : string).

Inductive result (A : Type) :=
| Ok (a : A)
| Raise (e : exn).
Arguments Ok {A} a.
Arguments Raise {A} e.

(** A book spine descriptor: one of the dict literals of the script. *)
Record book := Book {
  book_title : string;
  book_author : string;
  book_color : string;
  book_x : Z;
  book_width : Z
}.

(** What one run cannot control: whether the n-th attempt to open the font
    file succeeds, whether writing the output succeeds (and, when it does
    not, what is left under the file name), the entropy the [random] module
    seeds itself with when imported, and the files already present. *)
Record environment := Env {
  env_truetype : nat -> option exn;
  env_save : option (exn * option file);
  env_seed : Z;
  env_files : gmap string file
}.

Inductive event :=
| ENew (m : mode) (size : Z * Z) (color : string)
| ERectangle (b : box) (fill : string)
| ETruetype (path : string) (size : Z)
| ELoadDefault
| EText (xy : Z * Z) (s : string) (fill : string) (f : font)
| ESave (name : string) (fmt : format) (quality : Z)
| EPrint (s : string).

Record world := World {
  w_env : environment;
  w_images : list image;        (* image objects, by handle *)
  w_books : list book;          (* the list object bound to [books] *)
  w_random : option Z;          (* state of the [random] module *)
  w_truetype_calls : nat;       (* attempts to open a font file so far *)
  w_files : gmap string file;   (* the working directory *)
  w_stdout : string;            (* bytes written to standard output *)
  w_log : list event            (* library calls made, oldest first *)
}.

Definition init_world (e : environment) : world :=
  World e [] [] None 0 (env_files e) "" [].
Definition upd_images (f : list image -> list image) (w : world) : world :=
  World (w_env w) (f (w_images w)) (w_books w) (w_random w)
        (w_truetype_calls w) (w_files w) (w_stdout w) (w_log w).
Definition upd_books (f : list book -> list book) (w : world) : world :=
  World (w_env w) (w_images w) (f (w_books w)) (w_random w)
        (w_truetype_calls w) (w_files w) (w_stdout w) (w_log w).
Definition upd_random (f : option Z -> option Z) (w : world) : world :=
  World (w_env w) (w_images w) (w_books w) (f (w_random w))
        (w_truetype_calls w) (w_files w) (w_stdout w) (w_log w).
Definition upd_truetype_calls (f : nat -> nat) (w : world) : world :=
  World (w_env w) (w_images w) (w_books w) (w_random w)
        (f (w_truetype_calls w)) (w_files w) (w_stdout w) (w_log w).
Definition upd_files (f : gmap string file -> gmap string file) (w : world)
  : world :=
  World (w_env w) (w_images w) (w_books w) (w_random w)
        (w_truetype_calls w) (f (w_files w)) (w_stdout w) (w_log w).
Definition upd_stdout (f : string -> string) (w : world) : world :=
  World (w_env w) (w_images w) (w_books w) (w_random w)
        (w_truetype_calls w) (w_files w) (f (w_stdout w)) (w_log w).
Definition upd_log (f : list event -> list event) (w : world) : world :=
  World (w_env w) (w_images w) (w_books w) (w_random w)
        (w_truetype_calls w) (w_files w) (w_stdout w) (f (w_log w)).

(** ** The monad of statements: state plus exceptions *)

Definition M (A : Type) : Type := world -> result A * world.

#[global] Instance M_ret : MRet M := fun A a w => (Ok a, w).
#[global] Instance M_bind : MBind M := fun A B k m w =>
  match m w with
  | (Ok a, w') => k a w'
  | (Raise e, w') => (Raise e, w')
  end.

Definition raise {A} (e : exn) : M A := fun w => (Raise e, w).

(** [try: m except: handler], with a bare [except] clause: every exception
    is caught, whatever its class. *)
Definition try_except {A} (m : M A) (handler : M A) : M A := fun w =>
  match m w with
  | (Ok a, w') => (Ok a, w')
  | (Raise _, w') => handler w'
  end.

Fixpoint for_in {A} (l : list A) (body : A -> M unit) : M unit :=
  match l with
  | [] => mret tt
  | a :: l' => body a;; for_in l' body
  end.

Definition emit (e : event) : M unit := fun w =>
  (Ok tt, upd_log (fun l => l ++ [e]) w).

Definition handle := nat.

(** In-place update of the image object behind a handle; every holder of the
    handle sees the change. *)
Definition modify_image (h : handle) (f : image -> image) : M unit := fun w =>
  (Ok tt, upd_images (alter f h) w).

(** ** The library calls *)

Module Image.

Definition blank (m : mode) (size : Z * Z) (c : rgb) : image :=
  Image_ m size
         (replicate (Z.to_nat (snd size)) (replicate (Z.to_nat (fst size)) c)).

(** [Image.new(mode, size, color)]: a fresh image object.  The library
    rejects a negative size and a colour it cannot parse. *)
Definition new (m : mode) (size : Z * Z) (color : string) : M handle :=
  emit (ENew m size color);;
  if (fst size <? 0) || (snd size <? 0) then raise ValueError else
  match ImageColor.getrgb color with
  | None => raise ValueError
  | Some c =>
      (fun w => (Ok (length (w_images w)),
                 upd_images (fun l => l ++ [blank m size c]) w)) : M handle
  end.

(** [img.save(name, 'JPEG', quality=q)]: truncate-and-write of [name] in
    the working directory.  The image object itself is only read. *)
Definition save `{Backend} (img : handle) (name : string) (fmt : format)
    (quality : Z) : M unit :=
  emit (ESave name fmt quality);;
  ((fun w =>
    match w_images w !! img with
    | None => (Raise (OtherException "ReferenceError"), w)
    | Some im =>
        match env_save (w_env w) with
        | None => (Ok tt, upd_files (insert name (encode fmt quality im)) w)
        | Some (e, residue) =>
            (Raise e,
             upd_files (fun fs => match residue with
                                  | Some f => <[name := f]> fs
                                  | None => fs
                                  end) w)
        end
    end) : M unit).

End Image.

Module ImageFont.

(** [ImageFont.truetype(path, size)]: succeeds or raises as the
    environment decides for this attempt. *)
Definition truetype (path : string) (size : Z) : M font :=
  emit (ETruetype path size);;
  ((fun w =>
    let w' := upd_truetype_calls S w in
    match env_truetype (w_env w) (w_truetype_calls w) with
    | None => (Ok (FreeTypeFont path size), w')
    | Some e => (Raise e, w')
    end) : M font).

Definition load_default : M font :=
  emit ELoadDefault;; mret DefaultFont.

End ImageFont.

Module ImageDraw.

(** A drawing context keeps a reference to the image it draws on. *)
Record t := Draw_ { im : handle }.

Definition Draw (img : handle) : M t := mret (Draw_ img).

(** [draw.rectangle([x0, y0, x1, y1], fill=color)].  The library rejects a
    box whose second corner is above or left of the first. *)
Definition rectangle (d : t) (b : box) (fill : string) : M unit :=
  emit (ERectangle b fill);;
  match ImageColor.getrgb fill with
  | None => raise ValueError
  | Some ink =>
      let '(x0, y0, x1, y1) := b in
      if (x1 <? x0) || (y1 <? y0) then raise ValueError
      else modify_image (im d) (fill_box b ink)
  end.

(** [draw.text(xy, s, fill=color, font=f)]. *)
Definition text `{Backend} (d : t) (xy : Z * Z) (s : string) (fill : string)
    (f : font) : M unit :=
  emit (EText xy s fill f);;
  match ImageColor.getrgb fill with
  | None => raise ValueError
  | Some ink => modify_image (im d) (draw_text xy s ink f)
  end.

End ImageDraw.

Definition newline : string := String "010"%char EmptyString.

Definition print (s : string) : M unit :=
  emit (EPrint s);;
  ((fun w =>
      (Ok tt,
       upd_stdout (fun out => String.append out (String.append s newline)) w))
   : M unit).

(** [import random]: the module seeds its generator from the operating
    system when first imported.  Nothing in the script draws from it. *)
Definition import_random : M unit := fun w =>
  (Ok tt, upd_random (fun _ => Some (env_seed (w_env w))) w).

Definition store_books (bs : list book) : M unit := fun w =>
  (Ok tt, upd_books (fun _ => bs) w).

Definition load_books : M (list book) := fun w => (Ok (w_books w), w).

(** ** The script *)

Definition width : Z := 1200.
Definition height : Z := 800.

Definition books : list book :=
  [ Book "1984" "George Orwell" "#8B4513" 50 80;
    Book "To Kill a Mockingbird" "Harper Lee" "#4169E1" 140 100;
    Book "The Great Gatsby" "F. Scott Fitzgerald" "#228B22" 250 90;
    Book "Pride and Prejudice" "Jane Austen" "#DC143C" 350 95;
    Book "The Catcher in the Rye" "J.D. Salinger" "#FF8C00" 455 85 ].

Definition font_path : string := "/System/Library/Fonts/Helvetica.ttc".

(** The body of [for book in books:]. *)
Definition spine `{Backend} (draw : ImageDraw.t) (book : book) : M unit :=
  ImageDraw.rectangle draw
    (book_x book, 100, book_x book + book_width book, 700) (book_color book);;
  font ← try_except (ImageFont.truetype font_path 16) ImageFont.load_default;
  let text_x := book_x book + book_width book `div` 2 - 5 in
  ImageDraw.text draw (text_x, 150) (book_title book) "white" font;;
  ImageDraw.text draw (text_x, 400) (book_author book) "white" font.

Definition main `{Backend} : M unit :=
  import_random;;
  img ← Image.new RGB (width, height) "#F5E6D3";
  draw ← ImageDraw.Draw img;
  store_books books;;
  bs ← load_books;
  for_in bs (spine draw);;
  Image.save img "test-bookshelf.jpg" JPEG 85;;
  print "Created test-bookshelf.jpg".

(** A run of the script as a process: the outcome of [main] from the initial
    world.  The interpreter exits with status 0 when the module body runs to
    its end and with a non-zero status on an uncaught exception. *)
Definition run `{Backend} (e : environment) : result unit * world :=
  main (init_world e).

Definition exit_code (r : result unit) : Z :=
  match r with
  | Ok _ => 0
  | Raise _ => 1
  end.


(** * Part II: vocabulary of the statements *)

(** Two boxes are apart when no pixel lies in both. *)
Definition apart (b1 b2 : box) : Prop :=
  forall x y, in_box b1 x y = true -> in_box b2 x y = true -> False.

(** The rectangle, the text anchor and the parsed fill colour of a
    descriptor, as the loop body computes them. *)
Definition spine_box (b : book) : box :=
  (book_x b, 100, book_x b + book_width b, 700).

Definition text_x (b : book) : Z := book_x b + book_width b `div` 2 - 5.

Definition ink_of (b : book) : rgb :=
  default (0, 0, 0) (ImageColor.getrgb (book_color b)).

(** A descriptor the loop body accepts: its colour parses and its width is
    not negative. *)
Definition valid (b : book) : Prop :=
  is_Some (ImageColor.getrgb (book_color b)) /\ 0 <= book_width b.

(** The font the n-th loading attempt ends up with. *)
Definition font_at (e : environment) (n : nat) : font :=
  match env_truetype e n with
  | None => FreeTypeFont font_path 16
  | Some _ => DefaultFont
  end.

Definition white : rgb := (255, 255, 255).
Definition background : rgb := (245, 230, 211).
Definition output : string := "test-bookshelf.jpg".

(** What the n-th pass through the loop body paints and logs. *)
Definition spine_paint `{Backend} (e : environment) (n : nat) (b : book)
    (im : image) : image :=
  draw_text (text_x b, 400) (book_author b) white (font_at e n)
    (draw_text (text_x b, 150) (book_title b) white (font_at e n)
       (fill_box (spine_box b) (ink_of b) im)).

Definition spine_events (e : environment) (n : nat) (b : book) : list event :=
  [ERectangle (spine_box b) (book_color b); ETruetype font_path 16] ++
  match env_truetype e n with None => [] | Some _ => [ELoadDefault] end ++
  [EText (text_x b, 150) (book_title b) "white" (font_at e n);
   EText (text_x b, 400) (book_author b) "white" (font_at e n)].

Fixpoint paint_spines `{Backend} (e : environment) (n : nat) (bs : list book)
    (im : image) : image :=
  match bs with
  | [] => im
  | b :: bs' => paint_spines e (S n) bs' (spine_paint e n b im)
  end.

Fixpoint loop_events (e : environment) (n : nat) (bs : list book) : list event :=
  match bs with
  | [] => []
  | b :: bs' => spine_events e n b ++ loop_events e (S n) bs'
  end.

(** The canvas once the loop has run, and the calls logged up to there. *)
Definition canvas `{Backend} (e : environment) : image :=
  paint_spines e 0 books (Image.blank RGB (width, height) background).

Definition draw_log (e : environment) : list event :=
  ENew RGB (width, height) "#F5E6D3" :: loop_events e 0 books.

(** The world between the loop and the call to [img.save], and the two
    statements that remain. *)
Definition drawn_world `{Backend} (e : environment) : world :=
  World e [canvas e] books (Some (env_seed e)) 5 (env_files e) "" (draw_log e).

Definition finish `{Backend} (img : handle) : M unit :=
  Image.save img output JPEG 85;;
  print "Created test-bookshelf.jpg".

(** Reading the call log. *)
Definition rectangles_of (log : list event) : list (box * string) :=
  omap (fun ev => match ev with ERectangle b c => Some (b, c) | _ => None end) log.

Definition texts_of (log : list event) : list (Z * Z * string * string * font) :=
  omap (fun ev => match ev with EText xy s c f => Some (xy, s, c, f) | _ => None end)
       log.

Definition prints_of (log : list event) : list string :=
  omap (fun ev => match ev with EPrint s => Some s | _ => None end) log.

Definition news_of (log : list event) : list (mode * (Z * Z) * string) :=
  omap (fun ev => match ev with ENew m size c => Some (m, size, c) | _ => None end)
       log.

(** The two text calls of one spine. *)
Definition spine_texts (b : book) (f : font)
  : list (Z * Z * string * string * font) :=
  [ (text_x b, 150, book_title b, "white", f);
    (text_x b, 400, book_author b, "white", f) ].

(** A statement that leaves the descriptor list alone, however it ends. *)
Definition keeps_books {A} (m : M A) : Prop :=
  forall w, w_books (m w).2 = w_books w.

(** The loop reduced to its rectangle calls, over any list of descriptors,
    and what these calls paint. *)
Definition rectangles_only (draw : ImageDraw.t) (bs : list book) : M unit :=
  for_in bs (fun book =>
    ImageDraw.rectangle draw
      (book_x book, 100, book_x book + book_width book, 700) (book_color book)).

Fixpoint fill_spines (bs : list book) (im : image) : image :=
  match bs with
  | [] => im
  | b :: bs' => fill_spines bs' (fill_box (spine_box b) (ink_of b) im)
  end.

(** Each descriptor ends strictly left of where the next one starts. *)
Fixpoint spaced (bs : list book) : Prop :=
  match bs with
  | b1 :: (b2 :: _) as bs' => book_x b1 + book_width b1 < book_x b2 /\ spaced bs'
  | _ => True
  end.

(** Any two descriptors of the list are the same or have boxes apart. *)
Definition separated (bs : list book) : Prop :=
  forall b1 b2, b1 ∈ bs -> b2 ∈ bs ->
                b1 = b2 \/ apart (spine_box b1) (spine_box b2).

(** ** A concrete backend and two concrete environments

    Glyphs as solid 8 by 16 cells and the scan as the raw samples; a host
    without the font file and with an empty directory; and a second host
    where loading fails for another reason, the generator is seeded
    differently and an older output file is present. *)
Definition block_backend : Backend := {|
  text_ink := fun _ s ink dx dy p =>
    if (0 <=? dx) && (dx <? 8 * Z.of_nat (String.length s)) &&
       (0 <=? dy) && (dy <? 16)
    then ink else p;
  jpeg_scan := fun _ im =>
    flat_map (flat_map (fun '(r, g, b) => [r; g; b])) (im_rows im)
|}.

Definition no_font_env : environment :=
  Env (fun _ => Some OSError) None 1 ∅.

Definition stale_file : file := File_ JPEG 85 (1200, 800) [].

Definition other_env : environment :=
  Env (fun _ => Some ImportError) None 2 {[ "test-bookshelf.jpg" := stale_file ]}.

Definition books_swapped : list book :=
  [ Book "To Kill a Mockingbird" "Harper Lee" "#4169E1" 140 100;
    Book "1984" "George Orwell" "#8B4513" 50 80;
    Book "The Great Gatsby" "F. Scott Fitzgerald" "#228B22" 250 90;
    Book "Pride and Prejudice" "Jane Austen" "#DC143C" 350 95;
    Book "The Catcher in the Rye" "J.D. Salinger" "#FF8C00" 455 85 ].

(** ** Vocabulary of the further properties *)

(** What a drawing operation may not change in an image: its mode, its size
    and the lengths of its rows. *)
Definition shape (im : image) : mode * (Z * Z) * list nat :=
  (im_mode im, im_size im, length <$> im_rows im).

(** [w'] differs from [w] at most in the pixels of the image behind [h], in
    the count of font-loading attempts, which does not decrease, and in the
    log, which is only extended. *)
Definition only_draws (h : handle) (w w' : world) : Prop :=
  w_env w' = w_env w /\
  w_books w' = w_books w /\
  w_random w' = w_random w /\
  w_files w' = w_files w /\
  w_stdout w' = w_stdout w /\
  (forall h' : handle, h' <> h -> w_images w' !! h' = w_images w !! h') /\
  (forall h' : handle, shape <$> w_images w' !! h' = shape <$> w_images w !! h') /\
  (w_truetype_calls w <= w_truetype_calls w')%nat /\
  (exists l, w_log w' = w_log w ++ l).

Definition draws_only {A} (h : handle) (m : M A) : Prop :=
  forall w, only_draws h w (m w).2.





(** What the n-th pass through the loop body, and the passes from the n-th
    on, make of one pixel. *)
Definition spine_pixel `{Backend} (e : environment) (n : nat) (b : book)
    (x y : Z) (p : rgb) : rgb :=
  text_ink (font_at e n) (book_author b) white (x - text_x b) (y - 400)
    (text_ink (font_at e n) (book_title b) white (x - text_x b) (y - 150)
       (if in_box (spine_box b) x y then ink_of b else p)).

Fixpoint paint_pixel `{Backend} (e : environment) (n : nat) (bs : list book)
    (x y : Z) (p : rgb) : rgb :=
  match bs with
  | [] => p
  | b :: bs' => paint_pixel e (S n) bs' x y (spine_pixel e n b x y p)
  end.

(** The run's environment with the write made to succeed. *)
Definition with_write_ok (e : environment) : environment :=
  Env (env_truetype e) None (env_seed e) (env_files e).




Definition readonly_env : environment :=
  Env (fun _ => None) (Some (OSError, None)) 3 ∅.

(** * Part III: properties *)

(** ** The model evaluated on small inputs *)

Example getrgb_of_books :
  map (fun b => ImageColor.getrgb (book_color b)) books =
  [ Some (139, 69, 19); Some (65, 105, 225); Some (34, 139, 34);
    Some (220, 20, 60); Some (255, 140, 0) ].
Proof. vm_compute. reflexivity. Qed.

Example getrgb_rejects : ImageColor.getrgb "#F5E6D" = None.
Proof. vm_compute. reflexivity. Qed.

(** A rectangle reaching below a 4 by 3 image is clipped, both corners of
    the box are painted, and a text call paints over the pixels its glyphs
    cover (here, with the block backend, the one pixel right of and below
    the anchor that the image has). *)
Example small_drawing :
  let prog : M unit :=
    img ← Image.new RGB (4, 3) "black";
    draw ← ImageDraw.Draw img;
    ImageDraw.rectangle draw (1, 1, 2, 5) "#F00";;
    @ImageDraw.text block_backend draw (3, 2) "a" "white" DefaultFont in
  let k := (0, 0, 0) in let r := (255, 0, 0) in let w := (255, 255, 255) in
  (prog (init_world no_font_env)).1 = Ok tt /\
  im_rows <$> w_images (prog (init_world no_font_env)).2 =
    [ [ [k; k; k; k];
        [k; r; r; k];
        [k; r; r; w] ] ] /\
  rectangles_of (w_log (prog (init_world no_font_env)).2) =
    [((1, 1, 2, 5), "#F00")].
Proof. vm_compute. repeat split. Qed.

(** The fallback in isolation: a failed attempt still counts as an attempt
    and yields the default font; a successful one yields the font asked
    for. *)
Example fallback_step :
  let load := try_except (ImageFont.truetype font_path 16) ImageFont.load_default in
  (load (init_world no_font_env)).1 = Ok DefaultFont /\
  w_truetype_calls (load (init_world no_font_env)).2 = 1%nat /\
  (load (init_world (Env (fun _ => None) None 0 ∅))).1 =
    Ok (FreeTypeFont font_path 16).
Proof. vm_compute. repeat split. Qed.

(** ** Pixels *)

Section Pixels.
Implicit Types (f g : Z -> Z -> rgb -> rgb) (rows : list (list rgb)).
Implicit Types (im : image) (b : box) (ink : rgb).

Lemma lookup_map_pixels f rows (y : nat) :
  map_pixels f rows !! y =
  imap (fun x p => f (Z.of_nat x) (Z.of_nat y) p) <$> rows !! y.
Proof. unfold map_pixels. by rewrite list_lookup_imap. Qed.

Lemma length_map_pixels f rows : length (map_pixels f rows) = length rows.
Proof. unfold map_pixels. by rewrite length_imap. Qed.

Lemma map_pixels_compose f g rows :
  map_pixels f (map_pixels g rows) = map_pixels (fun x y p => f x y (g x y p)) rows.
Proof.
  apply list_eq; intros y. rewrite !lookup_map_pixels.
  destruct (rows !! y) as [row|]; simpl; [f_equal | done].
  apply list_eq; intros x. rewrite !list_lookup_imap.
  by destruct (row !! x).
Qed.

Lemma map_pixels_ext f g rows :
  (forall x y p, 0 <= x -> 0 <= y -> f x y p = g x y p) ->
  map_pixels f rows = map_pixels g rows.
Proof.
  intros Hfg. unfold map_pixels.
  apply imap_ext; intros y row _. apply imap_ext; intros x p _.
  apply Hfg; lia.
Qed.

Lemma getpixel_map_pixels f m s rows x y :
  getpixel (Image_ m s (map_pixels f rows)) x y =
  f x y <$> getpixel (Image_ m s rows) x y.
Proof.
  unfold getpixel; simpl.
  destruct (0 <=? x) eqn:Hx, (0 <=? y) eqn:Hy; simpl; try done.
  apply Z.leb_le in Hx, Hy.
  rewrite lookup_map_pixels.
  destruct (rows !! Z.to_nat y) as [row|]; simpl; [|done].
  rewrite list_lookup_imap, !Z2Nat.id by done. done.
Qed.

(** What a filled rectangle is: the pixels of the image that lie in the
    box take the ink, all others keep their value. *)
Lemma getpixel_fill_box b ink im x y :
  getpixel (fill_box b ink im) x y =
  (fun p => if in_box b x y then ink else p) <$> getpixel im x y.
Proof. destruct im as [m s rows]. apply getpixel_map_pixels. Qed.

Lemma getpixel_lt im x y p :
  well_formed im -> getpixel im x y = Some p ->
  0 <= x < fst (im_size im) /\ 0 <= y < snd (im_size im).
Proof.
  intros (Hw & Hh & Hlen & Hrows). unfold getpixel.
  destruct (0 <=? x) eqn:Hx, (0 <=? y) eqn:Hy; simpl; try done.
  apply Z.leb_le in Hx, Hy.
  destruct (im_rows im !! Z.to_nat y) as [row|] eqn:Hrow; simpl; [|done].
  intros Hp. apply lookup_lt_Some in Hp.
  rewrite (proj1 (Forall_lookup _ _) Hrows _ _ Hrow) in Hp.
  apply lookup_lt_Some in Hrow. lia.
Qed.

Lemma well_formed_map_pixels f m s rows :
  well_formed (Image_ m s rows) -> well_formed (Image_ m s (map_pixels f rows)).
Proof.
  intros (Hw & Hh & Hlen & Hrows); repeat split; simpl in *; try done.
  - by rewrite length_map_pixels.
  - apply Forall_lookup; intros y row. rewrite lookup_map_pixels.
    destruct (rows !! y) as [row'|] eqn:Hrow; simpl; [|done].
    intros [= <-]. rewrite length_imap.
    exact (proj1 (Forall_lookup _ _) Hrows _ _ Hrow).
Qed.

Lemma well_formed_fill_box b ink im :
  well_formed im -> well_formed (fill_box b ink im).
Proof. destruct im. apply well_formed_map_pixels. Qed.

Lemma im_size_fill_box b ink im : im_size (fill_box b ink im) = im_size im.
Proof. done. Qed.

Lemma well_formed_blank m s c :
  0 <= fst s -> 0 <= snd s -> well_formed (Image.blank m s c).
Proof.
  intros Hw Hh; repeat split; simpl; try done.
  - by rewrite length_replicate.
  - apply Forall_replicate. by rewrite length_replicate.
Qed.

Lemma getpixel_blank m s c x y :
  0 <= x < fst s -> 0 <= y < snd s ->
  getpixel (Image.blank m s c) x y = Some c.
Proof.
  intros Hx Hy. unfold getpixel, Image.blank; simpl.
  destruct (Z.leb_spec 0 x), (Z.leb_spec 0 y); try lia; simpl.
  rewrite lookup_replicate_2 by lia; simpl.
  apply lookup_replicate_2; lia.
Qed.

Lemma getpixel_blank_total m s c x y :
  0 <= fst s -> 0 <= snd s ->
  getpixel (Image.blank m s c) x y =
  if (0 <=? x) && (x <? fst s) && (0 <=? y) && (y <? snd s)
  then Some c else None.
Proof.
  intros Hw Hh.
  destruct (Z.leb_spec 0 x), (Z.ltb_spec x (fst s)),
    (Z.leb_spec 0 y), (Z.ltb_spec y (snd s)); simpl;
    try (apply getpixel_blank; lia);
    unfold getpixel, Image.blank; simpl;
    destruct (Z.leb_spec 0 x), (Z.leb_spec 0 y); try lia; simpl; try done.
  - rewrite (proj1 (lookup_replicate_None _ _ _)) by lia. done.
  - rewrite lookup_replicate_2 by lia; simpl.
    apply lookup_replicate_None; lia.
  - rewrite (proj1 (lookup_replicate_None _ _ _)) by lia. done.
Qed.

Lemma apart_sym b1 b2 : apart b1 b2 -> apart b2 b1.
Proof. intros Ha x y H2 H1. exact (Ha x y H1 H2). Qed.

Lemma in_box_spec x0 y0 x1 y1 x y :
  in_box (x0, y0, x1, y1) x y = true <-> x0 <= x <= x1 /\ y0 <= y <= y1.
Proof. unfold in_box. rewrite !andb_true_iff, !Z.leb_le. lia. Qed.

Lemma left_of_apart x0 y0 x1 y1 x0' y0' x1' y1' :
  x1 < x0' -> apart (x0, y0, x1, y1) (x0', y0', x1', y1').
Proof. intros Hlt x y H1%in_box_spec H2%in_box_spec. lia. Qed.

(** Fills of boxes that are apart commute. *)
Lemma fill_box_comm b1 ink1 b2 ink2 im :
  apart b1 b2 ->
  fill_box b1 ink1 (fill_box b2 ink2 im) = fill_box b2 ink2 (fill_box b1 ink1 im).
Proof.
  intros Ha. unfold fill_box; simpl. f_equal.
  rewrite !map_pixels_compose. apply map_pixels_ext; intros x y p _ _.
  destruct (in_box b1 x y) eqn:H1, (in_box b2 x y) eqn:H2; try done.
  destruct (Ha x y H1 H2).
Qed.

End Pixels.

(** ** Running statements *)

Lemma bind_ok {A B} (m : M A) (k : A -> M B) w a w' :
  m w = (Ok a, w') -> (m ≫= k) w = k a w'.
Proof. unfold mbind, M_bind. by intros ->. Qed.


Lemma alter_alter {A} (f g : A -> A) (i : nat) (l : list A) :
  alter f i (alter g i l) = alter (fun a => f (g a)) i l.
Proof.
  apply list_eq; intros j.
  destruct (decide (i = j)) as [->|Hne].
  - rewrite !list_lookup_alter_eq. by destruct (l !! j).
  - by rewrite !list_lookup_alter_ne.
Qed.

Lemma alter_self {A} (i : nat) (l : list A) : alter (fun a => a) i l = l.
Proof.
  apply list_eq; intros j.
  destruct (decide (i = j)) as [->|Hne].
  - rewrite list_lookup_alter_eq. by destruct (l !! j).
  - by rewrite list_lookup_alter_ne.
Qed.

(** Project the fields of an explicit [World] and nothing else. *)
Ltac world_simpl :=
  cbn [w_env w_images w_books w_random w_truetype_calls w_files w_stdout w_log].

Lemma world_eta w :
  World (w_env w) (w_images w) (w_books w) (w_random w) (w_truetype_calls w)
        (w_files w) (w_stdout w) (w_log w) = w.
Proof. by destruct w. Qed.

Lemma getrgb_white : ImageColor.getrgb "white" = Some white.
Proof. vm_compute. reflexivity. Qed.

Section Execution.
Context `{Backend}.

(** One pass through the loop body. *)
Lemma spine_run d b w :
  valid b ->
  spine d b w =
  (Ok tt,
   World (w_env w)
         (alter (spine_paint (w_env w) (w_truetype_calls w) b) (ImageDraw.im d)
                (w_images w))
         (w_books w) (w_random w) (S (w_truetype_calls w)) (w_files w)
         (w_stdout w)
         (w_log w ++ spine_events (w_env w) (w_truetype_calls w) b)).
Proof.
  intros [[ink Hink] Hwidth].
  unfold spine, spine_paint, spine_events, font_at, ink_of.
  unfold ImageDraw.rectangle, ImageDraw.text.
  rewrite getrgb_white, Hink.
  unfold ImageFont.truetype, ImageFont.load_default, try_except, emit,
    modify_image, mbind, M_bind, mret, M_ret, spine_box.
  cbn [default].
  destruct (Z.ltb_spec (book_x b + book_width b) (book_x b)); [lia|].
  cbn [orb Z.ltb Z.compare Pos.compare Pos.compare_cont].
  unfold upd_images, upd_log, upd_truetype_calls; world_simpl.
  destruct (env_truetype (w_env w) (w_truetype_calls w));
    cbv beta iota; world_simpl;
    rewrite !alter_alter, <- !app_assoc; reflexivity.
Qed.

(** The whole loop, over any list of acceptable descriptors. *)
Lemma for_in_spines d bs w :
  Forall valid bs ->
  for_in bs (spine d) w =
  (Ok tt,
   World (w_env w)
         (alter (paint_spines (w_env w) (w_truetype_calls w) bs) (ImageDraw.im d)
                (w_images w))
         (w_books w) (w_random w) (w_truetype_calls w + length bs)%nat
         (w_files w) (w_stdout w)
         (w_log w ++ loop_events (w_env w) (w_truetype_calls w) bs)).
Proof.
  intros Hbs; revert w; induction Hbs as [|b bs Hb _ IH]; intros w;
    cbn [for_in paint_spines loop_events length].
  - unfold mret, M_ret. rewrite alter_self.
    rewrite Nat.add_0_r, app_nil_r, world_eta. done.
  - erewrite bind_ok by (by apply spine_run).
    rewrite IH; world_simpl.
    rewrite alter_alter, <- app_assoc, Nat.add_succ_r.
    reflexivity.
Qed.

End Execution.

(** ** The whole run *)

Lemma getrgb_background : ImageColor.getrgb "#F5E6D3" = Some background.
Proof. vm_compute. reflexivity. Qed.

Lemma books_valid : Forall valid books.
Proof.
  unfold books.
  repeat (constructor; [split; [eexists; vm_compute; reflexivity | simpl; lia]|]).
  constructor.
Qed.

Lemma new_ok m size color c w :
  0 <= fst size -> 0 <= snd size -> ImageColor.getrgb color = Some c ->
  Image.new m size color w =
  (Ok (length (w_images w)),
   upd_images (fun l => l ++ [Image.blank m size c])
              (upd_log (fun l => l ++ [ENew m size color]) w)).
Proof.
  intros Hw Hh Hc. unfold Image.new, emit, mbind, M_bind, raise.
  destruct (Z.ltb_spec (fst size) 0), (Z.ltb_spec (snd size) 0); try lia.
  rewrite Hc. reflexivity.
Qed.

Section Run.
Context `{Backend}.

Lemma run_drawn e : run e = finish 0%nat (drawn_world e).
Proof.
  unfold run, main.
  erewrite bind_ok by reflexivity.
  erewrite bind_ok by (apply new_ok; [done | done | apply getrgb_background]).
  erewrite bind_ok by reflexivity.
  erewrite bind_ok by reflexivity.
  erewrite bind_ok by reflexivity.
  unfold upd_books, upd_images, upd_log, upd_random, init_world; world_simpl.
  erewrite bind_ok by (apply for_in_spines, books_valid).
  world_simpl. reflexivity.
Qed.

(** The run when the file can be written ... *)
Lemma run_ok e :
  env_save e = None ->
  run e =
  (Ok tt,
   World e [canvas e] books (Some (env_seed e)) 5
         (<[output := encode JPEG 85 (canvas e)]> (env_files e))
         (String.append "Created test-bookshelf.jpg" newline)
         (draw_log e ++ [ESave output JPEG 85;
                         EPrint "Created test-bookshelf.jpg"])).
Proof.
  intros Hsave. rewrite run_drawn.
  unfold finish, Image.save, print, emit, mbind, M_bind, drawn_world,
    upd_log, upd_files, upd_stdout; world_simpl.
  rewrite Hsave. cbn [lookup list_lookup]; world_simpl.
  rewrite <- app_assoc. reflexivity.
Qed.

(** ... and when it cannot: the exception leaves [main] and nothing is
    printed. *)
Lemma run_save_fails e ex residue :
  env_save e = Some (ex, residue) ->
  run e =
  (Raise ex,
   World e [canvas e] books (Some (env_seed e)) 5
         (match residue with
          | Some f => <[output := f]> (env_files e)
          | None => env_files e
          end)
         "" (draw_log e ++ [ESave output JPEG 85])).
Proof.
  intros Hsave. rewrite run_drawn.
  unfold finish, Image.save, print, emit, mbind, M_bind, drawn_world,
    upd_log, upd_files, upd_stdout; world_simpl.
  rewrite Hsave. cbn [lookup list_lookup]; world_simpl.
  reflexivity.
Qed.

End Run.

(** ** Reading the call log *)

Lemma rectangles_of_app l1 l2 :
  rectangles_of (l1 ++ l2) = rectangles_of l1 ++ rectangles_of l2.
Proof. apply omap_app. Qed.

Lemma texts_of_app l1 l2 : texts_of (l1 ++ l2) = texts_of l1 ++ texts_of l2.
Proof. apply omap_app. Qed.

Lemma prints_of_app l1 l2 : prints_of (l1 ++ l2) = prints_of l1 ++ prints_of l2.
Proof. apply omap_app. Qed.

Lemma news_of_app l1 l2 : news_of (l1 ++ l2) = news_of l1 ++ news_of l2.
Proof. apply omap_app. Qed.

(** ** Statements that leave the descriptor list alone *)

Create HintDb frame.

Lemma keeps_ret {A} (a : A) : keeps_books (mret a).
Proof. intros w. reflexivity. Qed.

Lemma keeps_raise {A} e : keeps_books (@raise A e).
Proof. intros w. reflexivity. Qed.

Lemma keeps_bind {A B} (m : M A) (k : A -> M B) :
  keeps_books m -> (forall a, keeps_books (k a)) -> keeps_books (m ≫= k).
Proof.
  intros Hm Hk w. unfold mbind, M_bind.
  specialize (Hm w). destruct (m w) as [[a|e] w']; simpl in *.
  - rewrite Hk. exact Hm.
  - exact Hm.
Qed.

Lemma keeps_try {A} (m handler : M A) :
  keeps_books m -> keeps_books handler -> keeps_books (try_except m handler).
Proof.
  intros Hm Hh w. unfold try_except.
  specialize (Hm w). destruct (m w) as [[a|e] w']; simpl in *.
  - exact Hm.
  - rewrite Hh. exact Hm.
Qed.

Lemma keeps_emit ev : keeps_books (emit ev).
Proof. intros w. reflexivity. Qed.

Lemma keeps_modify_image h f : keeps_books (modify_image h f).
Proof. intros w. reflexivity. Qed.

#[global] Hint Resolve keeps_ret keeps_raise keeps_emit keeps_modify_image : frame.
#[global] Hint Extern 2 (keeps_books (_ ≫= _)) => apply keeps_bind; [|intros ?] : frame.
#[global] Hint Extern 2 (keeps_books (try_except _ _)) => apply keeps_try : frame.

Lemma keeps_rectangle d b fill : keeps_books (ImageDraw.rectangle d b fill).
Proof.
  unfold ImageDraw.rectangle. destruct b as [[[x0 y0] x1] y1].
  destruct (ImageColor.getrgb fill); [|auto with frame].
  destruct ((x1 <? x0) || (y1 <? y0)); auto with frame.
Qed.

Lemma keeps_truetype path size : keeps_books (ImageFont.truetype path size).
Proof.
  unfold ImageFont.truetype. apply keeps_bind; [auto with frame|].
  intros _ w. by destruct (env_truetype _ _).
Qed.

Lemma keeps_load_default : keeps_books ImageFont.load_default.
Proof. unfold ImageFont.load_default. auto with frame. Qed.

Lemma keeps_text `{Backend} d xy s fill f : keeps_books (ImageDraw.text d xy s fill f).
Proof.
  unfold ImageDraw.text. destruct (ImageColor.getrgb fill); auto with frame.
Qed.

#[global] Hint Resolve keeps_rectangle keeps_truetype keeps_load_default
  keeps_text : frame.

Lemma keeps_spine `{Backend} d b : keeps_books (spine d b).
Proof. unfold spine. auto 10 with frame. Qed.

Lemma keeps_for_in {A} (l : list A) (body : A -> M unit) :
  (forall a, keeps_books (body a)) -> keeps_books (for_in l body).
Proof. intros Hbody. induction l as [|a l IH]; simpl; auto with frame. Qed.

(** ** What a run leaves behind, whatever the environment *)

Section Outcome.
Context `{Backend}.

Lemma run_outcome e :
  (run e).1 = match env_save e with
              | None => Ok tt
              | Some (ex, _) => Raise ex
              end.
Proof.
  destruct (env_save e) as [[ex residue]|] eqn:Hsave.
  - by rewrite (run_save_fails e ex residue).
  - by rewrite run_ok.
Qed.

Lemma run_log e :
  w_log (run e).2 =
  draw_log e ++
  ESave output JPEG 85 ::
  match env_save e with
  | None => [EPrint "Created test-bookshelf.jpg"]
  | Some _ => []
  end.
Proof.
  destruct (env_save e) as [[ex residue]|] eqn:Hsave.
  - by rewrite (run_save_fails e ex residue).
  - by rewrite run_ok.
Qed.

Lemma run_images e : w_images (run e).2 = [canvas e].
Proof.
  destruct (env_save e) as [[ex residue]|] eqn:Hsave.
  - by rewrite (run_save_fails e ex residue).
  - by rewrite run_ok.
Qed.

Lemma rectangles_spine e n b :
  rectangles_of (spine_events e n b) = [(spine_box b, book_color b)].
Proof. unfold spine_events. by destruct (env_truetype e n). Qed.

Lemma rectangles_loop e n bs :
  rectangles_of (loop_events e n bs) = map (fun b => (spine_box b, book_color b)) bs.
Proof.
  revert n; induction bs as [|b bs IH]; intros n; [done|].
  cbn [loop_events map].
  by rewrite rectangles_of_app, IH, rectangles_spine.
Qed.

Lemma news_loop e n bs : news_of (loop_events e n bs) = [].
Proof.
  revert n; induction bs as [|b bs IH]; intros n; [done|].
  cbn [loop_events]. rewrite news_of_app, IH.
  unfold spine_events. by destruct (env_truetype e n).
Qed.

Lemma prints_loop e n bs : prints_of (loop_events e n bs) = [].
Proof.
  revert n; induction bs as [|b bs IH]; intros n; [done|].
  cbn [loop_events]. rewrite prints_of_app, IH.
  unfold spine_events. by destruct (env_truetype e n).
Qed.

Lemma texts_spine e n b :
  texts_of (spine_events e n b) = spine_texts b (font_at e n).
Proof. unfold spine_events. by destruct (env_truetype e n). Qed.

Lemma texts_loop e n bs :
  texts_of (loop_events e n bs) =
  concat (zip_with spine_texts bs (map (font_at e) (seq n (length bs)))).
Proof.
  revert n; induction bs as [|b bs IH]; intros n; [done|].
  cbn [loop_events length seq map zip_with concat].
  by rewrite texts_of_app, IH, texts_spine.
Qed.

Lemma texts_loop_lookup e n bs (i : nat) b :
  bs !! i = Some b ->
  texts_of (loop_events e n bs) !! (2 * i)%nat =
    Some (text_x b, 150, book_title b, "white", font_at e (n + i)) /\
  texts_of (loop_events e n bs) !! (2 * i + 1)%nat =
    Some (text_x b, 400, book_author b, "white", font_at e (n + i)).
Proof.
  revert n i; induction bs as [|b' bs IH]; intros n i Hb; [done|].
  cbn [loop_events]. rewrite texts_of_app, texts_spine.
  destruct i as [|i]; simpl in Hb.
  - injection Hb as ->. rewrite Nat.add_0_r. done.
  - destruct (IH (S n) i Hb) as [Ht Ha].
    replace (2 * S i)%nat with (S (S (2 * i))) by lia.
    replace (n + S i)%nat with (S n + i)%nat by lia.
    split; [exact Ht | exact Ha].
Qed.

(** The log of the drawing phase, read call by call. *)
Lemma rectangles_of_draw_log e :
  rectangles_of (draw_log e) = map (fun b => (spine_box b, book_color b)) books.
Proof. exact (rectangles_loop e 0 books). Qed.

Lemma texts_of_draw_log e :
  texts_of (draw_log e) =
  concat (zip_with spine_texts books (map (font_at e) (seq 0 (length books)))).
Proof. exact (texts_loop e 0 books). Qed.

Lemma texts_of_draw_log_lookup e (i : nat) b :
  books !! i = Some b ->
  texts_of (draw_log e) !! (2 * i)%nat =
    Some (text_x b, 150, book_title b, "white", font_at e i) /\
  texts_of (draw_log e) !! (2 * i + 1)%nat =
    Some (text_x b, 400, book_author b, "white", font_at e i).
Proof. exact (texts_loop_lookup e 0 books i b). Qed.

Lemma prints_of_draw_log e : prints_of (draw_log e) = [].
Proof. exact (prints_loop e 0 books). Qed.

Lemma news_of_draw_log e :
  news_of (draw_log e) = [(RGB, (width, height), "#F5E6D3")].
Proof.
  unfold draw_log.
  change (news_of (ENew RGB (width, height) "#F5E6D3" :: loop_events e 0 books))
    with ((RGB, (width, height), "#F5E6D3") :: news_of (loop_events e 0 books)).
  by rewrite news_loop.
Qed.

End Outcome.

Section Painting.
Context `{Backend}.

Lemma im_size_spine_paint e n b im : im_size (spine_paint e n b im) = im_size im.
Proof. reflexivity. Qed.

Lemma im_size_paint_spines e n bs im : im_size (paint_spines e n bs im) = im_size im.
Proof.
  revert n im; induction bs as [|b bs IH]; intros n im; [done|].
  cbn [paint_spines]. by rewrite IH.
Qed.

Lemma well_formed_draw_text xy s ink f im :
  well_formed im -> well_formed (draw_text xy s ink f im).
Proof. destruct im. apply well_formed_map_pixels. Qed.

Lemma well_formed_paint_spines e n bs im :
  well_formed im -> well_formed (paint_spines e n bs im).
Proof.
  revert n im; induction bs as [|b bs IH]; intros n im Him; [done|].
  cbn [paint_spines]. apply IH. unfold spine_paint.
  by repeat apply well_formed_draw_text; apply well_formed_fill_box.
Qed.

Lemma im_size_canvas e : im_size (canvas e) = (1200, 800).
Proof. unfold canvas. by rewrite im_size_paint_spines. Qed.

Lemma well_formed_canvas e : well_formed (canvas e).
Proof. apply well_formed_paint_spines, well_formed_blank; done. Qed.

Lemma run_rectangles e :
  rectangles_of (w_log (run e).2) =
  map (fun b => (spine_box b, book_color b)) books.
Proof.
  rewrite run_log, rectangles_of_app, rectangles_of_draw_log.
  destruct (env_save e); apply app_nil_r.
Qed.

Lemma run_texts e :
  texts_of (w_log (run e).2) = texts_of (draw_log e).
Proof.
  rewrite run_log, texts_of_app. destruct (env_save e); apply app_nil_r.
Qed.

(** A rectangle call with an acceptable descriptor fills its box. *)
Lemma rectangle_run d b w :
  valid b ->
  ImageDraw.rectangle d (spine_box b) (book_color b) w =
  (Ok tt,
   upd_images (alter (fill_box (spine_box b) (ink_of b)) (ImageDraw.im d))
              (upd_log (fun l => l ++ [ERectangle (spine_box b) (book_color b)]) w)).
Proof.
  intros [[ink Hink] Hwidth].
  unfold ImageDraw.rectangle, ink_of, spine_box. rewrite Hink.
  destruct (Z.ltb_spec (book_x b + book_width b) (book_x b)); [lia|].
  reflexivity.
Qed.

End Painting.

(** ** The fonts are all the loop takes from the environment *)

Lemma font_at_agree e1 e2 n :
  (is_Some (env_truetype e1 n) <-> is_Some (env_truetype e2 n)) ->
  font_at e1 n = font_at e2 n.
Proof.
  unfold font_at. intros [H12 H21].
  destruct (env_truetype e1 n) as [x1|], (env_truetype e2 n) as [x2|]; try done.
  - destruct H12 as [? [=]]. by eexists.
  - destruct H21 as [? [=]]. by eexists.
Qed.

Lemma paint_spines_agree `{Backend} e1 e2 n bs im :
  (forall i, (i < length bs)%nat -> font_at e1 (n + i) = font_at e2 (n + i)) ->
  paint_spines e1 n bs im = paint_spines e2 n bs im.
Proof.
  revert n im; induction bs as [|b bs IH]; intros n im Hfonts; [done|].
  cbn [paint_spines]. unfold spine_paint.
  pose proof (Hfonts 0%nat ltac:(simpl; lia)) as H0.
  rewrite Nat.add_0_r in H0. rewrite H0.
  apply IH. intros i Hi.
  specialize (Hfonts (S i) ltac:(simpl; lia)).
  by replace (n + S i)%nat with (S n + i)%nat in Hfonts by lia.
Qed.

(** ** Rectangle fills alone *)

Lemma alter_ext {A} (f g : A -> A) (i : nat) (l : list A) :
  (forall a, f a = g a) -> alter f i l = alter g i l.
Proof.
  intros Hfg. apply list_eq; intros j.
  destruct (decide (i = j)) as [->|Hne].
  - rewrite !list_lookup_alter_eq. destruct (l !! j); simpl; [|done].
    by rewrite Hfg.
  - by rewrite !list_lookup_alter_ne.
Qed.

Lemma rectangles_only_run d bs w :
  Forall valid bs ->
  rectangles_only d bs w =
  (Ok tt,
   upd_images (alter (fill_spines bs) (ImageDraw.im d))
     (upd_log (fun l => l ++ map (fun b => ERectangle (spine_box b) (book_color b)) bs)
              w)).
Proof.
  unfold rectangles_only.
  intros Hbs; revert w; induction Hbs as [|b bs Hb _ IH]; intros w;
    cbn [for_in fill_spines map].
  - unfold mret, M_ret, upd_images, upd_log; world_simpl.
    by rewrite alter_self, app_nil_r, world_eta.
  - erewrite bind_ok by (exact (rectangle_run d b w Hb)).
    rewrite IH. unfold upd_images, upd_log; world_simpl.
    by rewrite alter_alter, <- app_assoc.
Qed.

Lemma spaced_head b bs :
  spaced (b :: bs) -> Forall (fun b' => 0 <= book_width b') bs ->
  Forall (fun b' => book_x b + book_width b < book_x b') bs.
Proof.
  revert b; induction bs as [|b2 bs IH]; intros b Hsp Hw; [constructor|].
  destruct Hsp as [Hlt Hsp]. inversion Hw as [|? ? Hw2 Hws]; subst.
  constructor; [exact Hlt|].
  eapply Forall_impl; [exact (IH b2 Hsp Hws)|].
  intros b' Hb'; simpl in Hb'. lia.
Qed.

Lemma spaced_separated bs :
  spaced bs -> Forall (fun b => 0 <= book_width b) bs -> separated bs.
Proof.
  induction bs as [|b bs IH]; intros Hsp Hw b1 b2 H1 H2.
  - by apply elem_of_nil in H1.
  - inversion Hw as [|? ? Hwb Hws]; subst.
    assert (spaced bs) as Hsp' by (destruct bs; [done | apply Hsp]).
    pose proof (spaced_head b bs Hsp Hws) as Hhead.
    rewrite Forall_forall in Hhead.
    apply elem_of_cons in H1 as [->|H1], H2 as [->|H2].
    + by left.
    + right. apply left_of_apart. by apply Hhead.
    + right. apply apart_sym, left_of_apart. by apply Hhead.
    + by apply IH.
Qed.

Lemma separated_perm bs bs' : Permutation bs bs' -> separated bs -> separated bs'.
Proof.
  intros Hperm Hsep b1 b2 H1 H2.
  apply Hsep; by rewrite Hperm.
Qed.

(** Fills of separated boxes give the same image in any order. *)
Lemma fill_spines_perm bs bs' :
  Permutation bs bs' -> separated bs ->
  forall im, fill_spines bs im = fill_spines bs' im.
Proof.
  induction 1 as [|b bs bs' Hperm IH|b1 b2 bs|bs1 bs2 bs3 H12 IH12 H23 IH23];
    intros Hsep im.
  - done.
  - cbn [fill_spines]. apply IH.
    intros a1 a2 Ha1 Ha2. apply Hsep; apply elem_of_cons; by right.
  - cbn [fill_spines]. f_equal.
    destruct (Hsep b1 b2) as [->|Hapart]; [| |done|].
    + rewrite !elem_of_cons. auto.
    + rewrite !elem_of_cons. auto.
    + by apply fill_box_comm.
  - rewrite IH12 by done. apply IH23. by apply (separated_perm bs1).
Qed.

Lemma books_spaced : spaced books.
Proof. simpl. lia. Qed.

Lemma books_separated : separated books.
Proof.
  apply spaced_separated; [exact books_spaced|].
  eapply Forall_impl; [exact books_valid|]. by intros b [_ Hw].
Qed.

(** * The claims *)

Section Claims.
Context `{Backend}.

(** C2. For each of the five descriptors, in listed order, the run calls the
    rectangle primitive exactly once, with the box from [x] to [x + width]
    horizontally and from 100 to 700 vertically and with the descriptor's
    colour as fill; each such call succeeds and fills that box of the canvas
    with the parsed colour. *)
Theorem spine_rectangles_drawn (e : environment) :
  length books = 5%nat /\
  rectangles_of (w_log (run e).2) =
    map (fun b => ((book_x b, 100, book_x b + book_width b, 700), book_color b))
        books /\
  Forall (fun b =>
    exists ink, ImageColor.getrgb (book_color b) = Some ink /\
    forall d w,
      let bx := (book_x b, 100, book_x b + book_width b, 700) in
      (ImageDraw.rectangle d bx (book_color b) w).1 = Ok tt /\
      w_images (ImageDraw.rectangle d bx (book_color b) w).2 =
        alter (fill_box bx ink) (ImageDraw.im d) (w_images w)) books.
Proof.
  split; [reflexivity|]. split; [apply run_rectangles|].
  eapply Forall_impl; [apply books_valid|].
  intros b Hb. destruct (Hb) as [[ink Hink] Hwidth].
  exists ink. split; [exact Hink|]. intros d w bx. subst bx.
  pose proof (rectangle_run d b w Hb) as Hrun. unfold spine_box in Hrun.
  rewrite Hrun. unfold ink_of. rewrite Hink. split; reflexivity.
Qed.

(** C5. For every descriptor the run draws the title and then the author,
    both with fill 'white' (which parses to (255, 255, 255)), both at the
    horizontal offset [x + width // 2 - 5], the title at vertical offset 150
    and the author below it at vertical offset 400; these are all the text
    calls of the run, in this order. *)
Theorem spine_texts_drawn (e : environment) :
  exists fonts : list font,
    length fonts = length books /\
    texts_of (w_log (run e).2) =
      concat (zip_with (fun b f =>
        [ (book_x b + book_width b `div` 2 - 5, 150, book_title b, "white", f);
          (book_x b + book_width b `div` 2 - 5, 400, book_author b, "white", f) ])
        books fonts) /\
    ImageColor.getrgb "white" = Some (255, 255, 255) /\
    150 < 400.
Proof.
  exists (map (font_at e) (seq 0 (length books))).
  split; [by rewrite length_map, length_seq|].
  split; [|split; [exact getrgb_white | lia]].
  rewrite run_texts. apply texts_of_draw_log.
Qed.

(** C8. The drawing loop never writes the descriptor list: whatever the
    world and the list iterated over, and whether the loop ends normally or
    by an exception, the descriptors stored after it are those stored before
    it; after the whole run they are still the five literals. *)
Theorem books_never_mutated (e : environment) :
  (forall d bs w, w_books (for_in bs (spine d) w).2 = w_books w) /\
  w_books (run e).2 = books.
Proof.
  split.
  - intros d bs w. apply keeps_for_in. intros b. apply keeps_spine.
  - destruct (env_save e) as [[ex residue]|] eqn:Hsave.
    + by rewrite (run_save_fails e ex residue).
    + by rewrite run_ok.
Qed.

(** C9. Every descriptor has [0 <= x] and [x + width <= 1200], the vertical
    extents 100 and 700 lie within 0..800, and every pixel covered by a
    rectangle call of the run is a pixel of the 1200 by 800 canvas. *)
Theorem rectangles_within_canvas (e : environment) :
  Forall (fun b => 0 <= book_x b /\ book_x b + book_width b <= 1200) books /\
  (0 <= 100 <= 800 /\ 0 <= 700 <= 800) /\
  Forall (fun r => forall x y, in_box r.1 x y = true ->
                               0 <= x < 1200 /\ 0 <= y < 800)
         (rectangles_of (w_log (run e).2)) /\
  exists im, w_images (run e).2 = [im] /\ im_size im = (1200, 800) /\ well_formed im.
Proof.
  split; [|split; [lia|split]].
  - unfold books. repeat (constructor; [simpl; lia|]). constructor.
  - rewrite run_rectangles. unfold books, spine_box.
    repeat (constructor; [intros x y Hin%in_box_spec; simpl in Hin; lia|]).
    constructor.
  - exists (canvas e). split; [apply run_images|].
    split; [apply im_size_canvas | apply well_formed_canvas].
Qed.

(** C4. The first library call of the run is [Image.new] with mode 'RGB',
    size 1200 by 800 and colour '#F5E6D3', which parses to (245, 230, 211);
    the call appends one image object to the store, of size 1200 by 800,
    storing exactly 800 rows of 1200 pixels, every one of them that colour;
    it is the only image the run allocates, and the final canvas is this
    image after the loop. *)
Theorem initial_canvas (e : environment) :
  ImageColor.getrgb "#F5E6D3" = Some (245, 230, 211) /\
  (forall w,
     Image.new RGB (width, height) "#F5E6D3" w =
     (Ok (length (w_images w)),
      upd_images (fun l => l ++ [Image.blank RGB (1200, 800) (245, 230, 211)])
                 (upd_log (fun l => l ++ [ENew RGB (1200, 800) "#F5E6D3"]) w))) /\
  (let im0 := Image.blank RGB (1200, 800) (245, 230, 211) in
   im_size im0 = (1200, 800) /\ well_formed im0 /\
   forall x y,
     getpixel im0 x y =
     if (0 <=? x) && (x <? 1200) && (0 <=? y) && (y <? 800)
     then Some (245, 230, 211) else None) /\
  head (w_log (run e).2) = Some (ENew RGB (1200, 800) "#F5E6D3") /\
  news_of (w_log (run e).2) = [(RGB, (1200, 800), "#F5E6D3")] /\
  w_images (run e).2 =
    [paint_spines e 0 books (Image.blank RGB (1200, 800) (245, 230, 211))].
Proof.
  split; [exact getrgb_background|].
  split; [intros w; apply new_ok; [done | done | exact getrgb_background]|].
  split; [|split; [|split]].
  - split; [reflexivity|]. split; [by apply well_formed_blank|].
    intros x y. by apply getpixel_blank_total.
  - by rewrite run_log.
  - rewrite run_log, news_of_app, news_of_draw_log. by destruct (env_save e).
  - rewrite run_images. unfold canvas, width, height, background. reflexivity.
Qed.

(** C1. When the write succeeds, the run ends normally, its log ends with the
    call [img.save('test-bookshelf.jpg', 'JPEG', quality=85)] followed only
    by the print, all five rectangle calls and all ten text calls come before
    that save, and the working directory afterwards is the initial one with
    'test-bookshelf.jpg' bound (whether or not it was bound before) to the
    JPEG encoding at quality 85 of the final canvas, with frame size
    1200 by 800; no other file name is touched. *)
Theorem output_file_written (e : environment) :
  env_save e = None ->
  exists im draws,
    (run e).1 = Ok tt /\
    w_images (run e).2 = [im] /\
    w_log (run e).2 =
      draws ++ [ESave "test-bookshelf.jpg" JPEG 85;
                EPrint "Created test-bookshelf.jpg"] /\
    length (rectangles_of draws) = 5%nat /\
    length (texts_of draws) = 10%nat /\
    w_files (run e).2 =
      <["test-bookshelf.jpg" := File_ JPEG 85 (1200, 800) (jpeg_scan 85 im)]>
        (env_files e) /\
    w_files (run e).2 !! "test-bookshelf.jpg" =
      Some (File_ JPEG 85 (1200, 800) (jpeg_scan 85 im)).
Proof.
  intros Hsave. exists (canvas e), (draw_log e).
  rewrite (run_ok e Hsave); cbn [fst snd]; world_simpl.
  unfold encode, output. rewrite im_size_canvas.
  repeat split.
  - by rewrite rectangles_of_draw_log.
  - by rewrite texts_of_draw_log.
  - apply lookup_insert_eq.
Qed.

(** C3. If the attempt to load the font for a spine fails, with whatever
    exception, both texts of that spine are drawn with the default font, the
    loop still makes all five rectangle calls and all ten text calls, and
    the run ends as the write decides: normally, with an output file of
    frame size 1200 by 800, when the write succeeds; by the exception of
    the write, with nothing printed, when it fails, since no handler
    encloses it. *)
Theorem font_fallback (e : environment) (i : nat) (b : book) (ex : exn) :
  books !! i = Some b ->
  env_truetype e i = Some ex ->
  texts_of (w_log (run e).2) !! (2 * i)%nat =
    Some (book_x b + book_width b `div` 2 - 5, 150, book_title b, "white",
          DefaultFont) /\
  texts_of (w_log (run e).2) !! (2 * i + 1)%nat =
    Some (book_x b + book_width b `div` 2 - 5, 400, book_author b, "white",
          DefaultFont) /\
  length (rectangles_of (w_log (run e).2)) = 5%nat /\
  length (texts_of (w_log (run e).2)) = 10%nat /\
  match env_save e with
  | None =>
      (run e).1 = Ok tt /\
      exists f, w_files (run e).2 !! "test-bookshelf.jpg" = Some f /\
                f_format f = JPEG /\ f_size f = (1200, 800)
  | Some (ex', _) =>
      (run e).1 = Raise ex' /\ w_stdout (run e).2 = ""
  end.
Proof.
  intros Hb Hfail.
  destruct (texts_of_draw_log_lookup e i b Hb) as [Htitle Hauthor].
  unfold font_at in Htitle, Hauthor. rewrite Hfail in Htitle, Hauthor.
  rewrite run_texts, run_rectangles.
  split; [exact Htitle|]. split; [exact Hauthor|].
  split; [reflexivity|]. split; [by rewrite texts_of_draw_log|].
  destruct (env_save e) as [[ex' residue]|] eqn:Hsave.
  - by rewrite (run_save_fails e ex' residue Hsave).
  - rewrite (run_ok e Hsave); cbn [fst snd]; world_simpl.
    split; [reflexivity|]. eexists. split; [apply lookup_insert_eq|].
    split; [reflexivity|]. apply im_size_canvas.
Qed.

(** C6. The final canvas depends on the environment only through which of
    the five font-loading attempts succeed: two runs that agree on that end
    with the same canvas, whatever their seeds, their initial files and the
    fate of their writes.  The generator of [random] is seeded and never
    drawn from.  A second run started on the files the first one left, both
    writes succeeding, leaves the same files again. *)
Theorem canvas_deterministic (e1 e2 : environment) :
  (forall i, (i < length books)%nat ->
             is_Some (env_truetype e1 i) <-> is_Some (env_truetype e2 i)) ->
  w_images (run e1).2 = w_images (run e2).2 /\
  w_random (run e1).2 = Some (env_seed e1) /\
  match env_save e1, env_save e2 with
  | None, None =>
      w_files (run e1).2 !! "test-bookshelf.jpg" =
      w_files (run e2).2 !! "test-bookshelf.jpg" /\
      (env_files e2 = w_files (run e1).2 ->
       w_files (run e2).2 = w_files (run e1).2)
  | _, _ => True
  end.
Proof.
  intros Hfonts.
  assert (canvas e1 = canvas e2) as Hcanvas.
  { unfold canvas. apply paint_spines_agree.
    intros i Hi. apply font_at_agree. cbn [Nat.add]. by apply Hfonts. }
  split; [by rewrite !run_images, Hcanvas|].
  split.
  - destruct (env_save e1) as [[ex residue]|] eqn:Hsave.
    + by rewrite (run_save_fails e1 ex residue Hsave).
    + by rewrite (run_ok e1 Hsave).
  - destruct (env_save e1) as [[ex1 r1]|] eqn:Hs1; [done|].
    destruct (env_save e2) as [[ex2 r2]|] eqn:Hs2; [done|].
    rewrite (run_ok e1 Hs1), (run_ok e2 Hs2); cbn [snd]; world_simpl.
    rewrite Hcanvas. split.
    + by rewrite !lookup_insert_eq.
    + intros ->. apply insert_insert_eq.
Qed.

(** C7. A run that ends normally has written to standard output exactly the
    line 'Created test-bookshelf.jpg', by its only print call, made right
    after the save call, with the output file present; the process exits
    with status 0. *)
Theorem confirmation_printed (e : environment) :
  (run e).1 = Ok tt ->
  w_stdout (run e).2 = String.append "Created test-bookshelf.jpg" newline /\
  exit_code (run e).1 = 0 /\
  prints_of (w_log (run e).2) = ["Created test-bookshelf.jpg"] /\
  (exists pre, w_log (run e).2 =
     pre ++ [ESave "test-bookshelf.jpg" JPEG 85;
             EPrint "Created test-bookshelf.jpg"]) /\
  is_Some (w_files (run e).2 !! "test-bookshelf.jpg").
Proof.
  intros Hok.
  destruct (env_save e) as [[ex residue]|] eqn:Hsave.
  { by rewrite (run_save_fails e ex residue Hsave) in Hok. }
  clear Hok. rewrite (run_ok e Hsave); cbn [fst snd]; world_simpl.
  split; [reflexivity|]. split; [reflexivity|]. split; [|split].
  - by rewrite prints_of_app, prints_of_draw_log.
  - by exists (draw_log e).
  - eexists. apply lookup_insert_eq.
Qed.

(** C10. In listed order each descriptor's [x + width] is strictly less than
    the next descriptor's [x]; no pixel lies in the boxes of two different
    descriptors; and making the five rectangle calls in any order succeeds
    and leaves the same images as making them in listed order. *)
Theorem rectangles_disjoint_commute (bs : list book) :
  Permutation books bs ->
  (forall (i : nat) b1 b2,
     books !! i = Some b1 -> books !! S i = Some b2 ->
     book_x b1 + book_width b1 < book_x b2) /\
  (forall b1 b2 x y,
     b1 ∈ books -> b2 ∈ books -> b1 <> b2 ->
     in_box (book_x b1, 100, book_x b1 + book_width b1, 700) x y = true ->
     in_box (book_x b2, 100, book_x b2 + book_width b2, 700) x y = true ->
     False) /\
  (forall d w,
     (rectangles_only d bs w).1 = Ok tt /\
     w_images (rectangles_only d bs w).2 =
     w_images (rectangles_only d books w).2).
Proof.
  intros Hperm. split; [|split].
  - intros i b1 b2 H1 H2.
    do 5 (destruct i as [|i]; [simpl in H1, H2; simplify_eq; simpl; lia|]).
    done.
  - intros b1 b2 x y H1 H2 Hne.
    destruct (books_separated b1 b2 H1 H2) as [->|Hapart]; [done|].
    apply Hapart.
  - intros d w.
    assert (Forall valid bs) as Hvalid
      by (eapply Permutation_Forall; [exact Hperm | exact books_valid]).
    rewrite (rectangles_only_run d bs w Hvalid),
      (rectangles_only_run d books w books_valid).
    split; [reflexivity|]. cbn [snd]. unfold upd_images, upd_log; world_simpl.
    apply alter_ext. intros im. symmetry.
    apply fill_spines_perm; [exact Hperm | exact books_separated].
Qed.

End Claims.

(** * Part IV: the conditional claims at concrete runs *)

(** A host with an older output file: the write replaces it. *)
Lemma output_file_written_witness :
  env_save other_env = None /\
  exists im draws,
    (@run block_backend other_env).1 = Ok tt /\
    w_images (@run block_backend other_env).2 = [im] /\
    w_log (@run block_backend other_env).2 =
      draws ++ [ESave "test-bookshelf.jpg" JPEG 85;
                EPrint "Created test-bookshelf.jpg"] /\
    length (rectangles_of draws) = 5%nat /\
    length (texts_of draws) = 10%nat /\
    w_files (@run block_backend other_env).2 =
      <["test-bookshelf.jpg" :=
          File_ JPEG 85 (1200, 800) (@jpeg_scan block_backend 85 im)]>
        (env_files other_env) /\
    w_files (@run block_backend other_env).2 !! "test-bookshelf.jpg" =
      Some (File_ JPEG 85 (1200, 800) (@jpeg_scan block_backend 85 im)).
Proof.
  split; [reflexivity|].
  apply (@output_file_written block_backend other_env). reflexivity.
Defined.

(** A host without the font file: the first spine, like the others, gets the
    default font. *)
Lemma font_fallback_witness :
  books !! 0%nat = Some (Book "1984" "George Orwell" "#8B4513" 50 80) /\
  env_truetype no_font_env 0 = Some OSError /\
  texts_of (w_log (@run block_backend no_font_env).2) !! 0%nat =
    Some (50 + 80 `div` 2 - 5, 150, "1984", "white", DefaultFont) /\
  texts_of (w_log (@run block_backend no_font_env).2) !! 1%nat =
    Some (50 + 80 `div` 2 - 5, 400, "George Orwell", "white", DefaultFont) /\
  length (rectangles_of (w_log (@run block_backend no_font_env).2)) = 5%nat /\
  length (texts_of (w_log (@run block_backend no_font_env).2)) = 10%nat /\
  (@run block_backend no_font_env).1 = Ok tt /\
  exists f,
    w_files (@run block_backend no_font_env).2 !! "test-bookshelf.jpg" = Some f /\
    f_format f = JPEG /\ f_size f = (1200, 800).
Proof.
  split; [reflexivity|]. split; [reflexivity|].
  exact (@font_fallback block_backend no_font_env 0
           (Book "1984" "George Orwell" "#8B4513" 50 80) OSError
           eq_refl eq_refl).
Defined.

(** Two hosts where loading fails for different reasons, with different
    seeds and different files: the same canvas. *)
Lemma canvas_deterministic_witness :
  (forall i, (i < length books)%nat ->
             is_Some (env_truetype no_font_env i) <->
             is_Some (env_truetype other_env i)) /\
  w_images (@run block_backend no_font_env).2 =
  w_images (@run block_backend other_env).2 /\
  w_random (@run block_backend no_font_env).2 = Some 1 /\
  w_files (@run block_backend no_font_env).2 !! "test-bookshelf.jpg" =
  w_files (@run block_backend other_env).2 !! "test-bookshelf.jpg" /\
  (env_files other_env = w_files (@run block_backend no_font_env).2 ->
   w_files (@run block_backend other_env).2 =
   w_files (@run block_backend no_font_env).2).
Proof.
  assert (forall i, (i < length books)%nat ->
                    is_Some (env_truetype no_font_env i) <->
                    is_Some (env_truetype other_env i)) as Hfonts
    by (intros i _; split; intros _; eexists; reflexivity).
  split; [exact Hfonts|].
  exact (@canvas_deterministic block_backend no_font_env other_env Hfonts).
Defined.

(** A run that ends normally. *)
Lemma confirmation_printed_witness :
  (@run block_backend other_env).1 = Ok tt /\
  w_stdout (@run block_backend other_env).2 =
    String.append "Created test-bookshelf.jpg" newline /\
  exit_code (@run block_backend other_env).1 = 0 /\
  prints_of (w_log (@run block_backend other_env).2) =
    ["Created test-bookshelf.jpg"] /\
  (exists pre, w_log (@run block_backend other_env).2 =
     pre ++ [ESave "test-bookshelf.jpg" JPEG 85;
             EPrint "Created test-bookshelf.jpg"]) /\
  is_Some (w_files (@run block_backend other_env).2 !! "test-bookshelf.jpg").
Proof.
  split; [reflexivity|].
  apply (@confirmation_printed block_backend other_env). reflexivity.
Defined.

(** The first two descriptors exchanged. *)
Lemma rectangles_disjoint_commute_witness :
  Permutation books books_swapped /\
  (forall (i : nat) b1 b2,
     books !! i = Some b1 -> books !! S i = Some b2 ->
     book_x b1 + book_width b1 < book_x b2) /\
  (forall b1 b2 x y,
     b1 ∈ books -> b2 ∈ books -> b1 <> b2 ->
     in_box (book_x b1, 100, book_x b1 + book_width b1, 700) x y = true ->
     in_box (book_x b2, 100, book_x b2 + book_width b2, 700) x y = true ->
     False) /\
  (forall d w,
     (rectangles_only d books_swapped w).1 = Ok tt /\
     w_images (rectangles_only d books_swapped w).2 =
     w_images (rectangles_only d books w).2).
Proof.
  assert (Permutation books books_swapped) as Hperm by apply perm_swap.
  split; [exact Hperm|].
  exact (rectangles_disjoint_commute books_swapped Hperm).
Defined.

(** * Part V: further properties of the script *)

(** ** What the drawing loop leaves alone *)

Lemma only_draws_refl h w : only_draws h w w.
Proof. unfold only_draws. repeat split; try done. exists []. by rewrite app_nil_r. Qed.

Lemma only_draws_trans h w1 w2 w3 :
  only_draws h w1 w2 -> only_draws h w2 w3 -> only_draws h w1 w3.
Proof.
  intros (He & Hb & Hr & Hf & Hs & Ho & Hsh & Hc & [l Hl])
         (He' & Hb' & Hr' & Hf' & Hs' & Ho' & Hsh' & Hc' & [l' Hl']).
  unfold only_draws. split_and!; try congruence.
  - intros h' Hne. by rewrite Ho', Ho.
  - lia.
  - exists (l ++ l'). by rewrite Hl', Hl, app_assoc.
Qed.

Lemma shape_map_pixels f m s rows :
  shape (Image_ m s (map_pixels f rows)) = shape (Image_ m s rows).
Proof.
  unfold shape; simpl. f_equal. apply list_eq; intros y.
  rewrite !list_lookup_fmap, lookup_map_pixels.
  destruct (rows !! y) as [row|]; simpl; [|done]. by rewrite length_imap.
Qed.

Lemma shape_fill_box b ink im : shape (fill_box b ink im) = shape im.
Proof. destruct im. apply shape_map_pixels. Qed.

Lemma shape_draw_text `{Backend} xy s ink f im :
  shape (draw_text xy s ink f im) = shape im.
Proof. destruct im. apply shape_map_pixels. Qed.

Lemma draws_only_ret {A} h (a : A) : draws_only h (mret a).
Proof. intros w. apply only_draws_refl. Qed.

Lemma draws_only_raise {A} h e : draws_only h (@raise A e).
Proof. intros w. apply only_draws_refl. Qed.

Lemma draws_only_bind {A B} h (m : M A) (k : A -> M B) :
  draws_only h m -> (forall a, draws_only h (k a)) -> draws_only h (m ≫= k).
Proof.
  intros Hm Hk w. unfold mbind, M_bind.
  specialize (Hm w). destruct (m w) as [[a|e] w']; simpl in *; [|exact Hm].
  eapply only_draws_trans; [exact Hm | apply Hk].
Qed.

Lemma draws_only_try {A} h (m handler : M A) :
  draws_only h m -> draws_only h handler -> draws_only h (try_except m handler).
Proof.
  intros Hm Hh w. unfold try_except.
  specialize (Hm w). destruct (m w) as [[a|e] w']; simpl in *; [exact Hm|].
  eapply only_draws_trans; [exact Hm | apply Hh].
Qed.

Lemma draws_only_emit h ev : draws_only h (emit ev).
Proof.
  intros w. unfold only_draws, emit; simpl. repeat split; try done.
  by exists [ev].
Qed.

Lemma draws_only_modify_image h f :
  (forall im, shape (f im) = shape im) -> draws_only h (modify_image h f).
Proof.
  intros Hf w. unfold only_draws, modify_image; simpl.
  split_and!; try done.
  - intros h' Hne. by apply list_lookup_alter_ne.
  - intros h'. destruct (decide (h = h')) as [Heq|Hne].
    + subst h'. rewrite list_lookup_alter_eq, <- option_fmap_compose.
      apply option_fmap_ext. exact Hf.
    + by rewrite list_lookup_alter_ne.
  - exists []. by rewrite app_nil_r.
Qed.

Create HintDb draws.

#[global] Hint Resolve draws_only_ret draws_only_raise draws_only_emit : draws.
#[global] Hint Extern 2 (draws_only _ (_ ≫= _)) =>
  apply draws_only_bind; [|intros ?] : draws.
#[global] Hint Extern 2 (draws_only _ (try_except _ _)) =>
  apply draws_only_try : draws.

Lemma draws_only_rectangle d b fill :
  draws_only (ImageDraw.im d) (ImageDraw.rectangle d b fill).
Proof.
  unfold ImageDraw.rectangle. destruct b as [[[x0 y0] x1] y1].
  destruct (ImageColor.getrgb fill); [|auto with draws].
  destruct ((x1 <? x0) || (y1 <? y0)); [auto with draws|].
  apply draws_only_bind; [auto with draws|]. intros _.
  apply draws_only_modify_image, shape_fill_box.
Qed.

Lemma draws_only_text `{Backend} d xy s fill f :
  draws_only (ImageDraw.im d) (ImageDraw.text d xy s fill f).
Proof.
  unfold ImageDraw.text. destruct (ImageColor.getrgb fill); [|auto with draws].
  apply draws_only_bind; [auto with draws|]. intros _.
  apply draws_only_modify_image, shape_draw_text.
Qed.

Lemma draws_only_truetype h path size : draws_only h (ImageFont.truetype path size).
Proof.
  unfold ImageFont.truetype. apply draws_only_bind; [auto with draws|].
  intros _ w. unfold only_draws.
  destruct (env_truetype (w_env w) (w_truetype_calls w)); simpl;
    (repeat split; try done; [lia | exists []; by rewrite app_nil_r]).
Qed.

Lemma draws_only_load_default h : draws_only h ImageFont.load_default.
Proof. unfold ImageFont.load_default. auto with draws. Qed.

#[global] Hint Resolve draws_only_rectangle draws_only_text draws_only_truetype
  draws_only_load_default : draws.

Lemma draws_only_spine `{Backend} d b : draws_only (ImageDraw.im d) (spine d b).
Proof. unfold spine. auto 10 with draws. Qed.

Lemma draws_only_for_in {A} h (l : list A) (body : A -> M unit) :
  (forall a, draws_only h (body a)) -> draws_only h (for_in l body).
Proof. intros Hbody. induction l as [|a l IH]; simpl; auto with draws. Qed.

(** ** The loop over a list in two parts *)



(** ** Reading the log of the loop for font calls *)





(** ** Pixels of the painted canvas *)

Lemma getpixel_draw_text `{Backend} xy s ink f im x y :
  getpixel (draw_text xy s ink f im) x y =
  text_ink f s ink (x - xy.1) (y - xy.2) <$> getpixel im x y.
Proof.
  destruct im as [m sz rows].
  exact (getpixel_map_pixels
           (fun x y p => text_ink f s ink (x - xy.1) (y - xy.2) p) m sz rows x y).
Qed.

Lemma getpixel_spine_paint `{Backend} e n b im x y :
  getpixel (spine_paint e n b im) x y = spine_pixel e n b x y <$> getpixel im x y.
Proof.
  unfold spine_paint, spine_pixel.
  rewrite !getpixel_draw_text, getpixel_fill_box.
  by destruct (getpixel im x y).
Qed.

Lemma getpixel_paint_spines `{Backend} e n bs im x y :
  getpixel (paint_spines e n bs im) x y = paint_pixel e n bs x y <$> getpixel im x y.
Proof.
  revert n im; induction bs as [|b bs IH]; intros n im;
    cbn [paint_spines paint_pixel].
  - by destruct (getpixel im x y).
  - rewrite IH, getpixel_spine_paint. by destruct (getpixel im x y).
Qed.

Lemma paint_pixel_app `{Backend} e n bs1 bs2 x y p :
  paint_pixel e n (bs1 ++ bs2) x y p =
  paint_pixel e (n + length bs1) bs2 x y (paint_pixel e n bs1 x y p).
Proof.
  revert n p; induction bs1 as [|b bs1 IH]; intros n p; cbn [app paint_pixel length].
  - by rewrite Nat.add_0_r.
  - rewrite IH. by replace (S n + length bs1)%nat with (n + S (length bs1))%nat by lia.
Qed.


(** Where no box reaches and every text anchor lies further right or
    further down, a rasteriser that paints only to the right of and below
    the anchor leaves the pixel as it was. *)
Lemma paint_pixel_untouched `{Backend} e n bs x y p :
  (forall f s ink dx dy q, dx < 0 \/ dy < 0 -> text_ink f s ink dx dy q = q) ->
  Forall (fun b => in_box (spine_box b) x y = false /\ (x < text_x b \/ y < 150)) bs ->
  paint_pixel e n bs x y p = p.
Proof.
  intros Hink Hbs; revert n; induction Hbs as [|b bs [Hout Hfar] _ IH]; intros n;
    cbn [paint_pixel]; [done|].
  assert (spine_pixel e n b x y p = p) as ->; [|apply IH].
  unfold spine_pixel. rewrite Hout. rewrite !Hink; [done|lia..].
Qed.

(** Inside the box of a spine, left of its text anchor or above its title
    row, with no later box reaching there and every later anchor further
    right or further down, such a rasteriser leaves the colour of the spine. *)
Lemma paint_pixel_own_colour `{Backend} e n bs1 b bs2 x y p :
  (forall f s ink dx dy q, dx < 0 \/ dy < 0 -> text_ink f s ink dx dy q = q) ->
  in_box (spine_box b) x y = true ->
  x < text_x b \/ y < 150 ->
  Forall (fun b' => in_box (spine_box b') x y = false /\
                    (x < text_x b' \/ y < 150)) bs2 ->
  paint_pixel e n (bs1 ++ b :: bs2) x y p = ink_of b.
Proof.
  intros Hink Hin Hfar Hlater.
  rewrite paint_pixel_app. cbn [paint_pixel].
  rewrite (paint_pixel_untouched _ _ bs2 x y _ Hink Hlater).
  unfold spine_pixel. rewrite Hin. rewrite !Hink; [done|lia..].
Qed.

(** Replace the anchor of a concrete descriptor by its value. *)
Ltac compute_anchors :=
  repeat match goal with
  | |- context [text_x ?b] =>
      let v := eval vm_compute in (text_x b) in change (text_x b) with v
  | H : context [text_x ?b] |- _ =>
      let v := eval vm_compute in (text_x b) in change (text_x b) with v in H
  end.

(** The side conditions of [paint_pixel_untouched] and
    [paint_pixel_own_colour] over a concrete list, once the pixel is known
    to lie in a box left of it or in a margin. *)
Ltac later_spines_clear :=
  repeat (constructor;
    [split;
     [apply not_true_is_false; intros ?Hin'%in_box_spec;
      cbn [book_x book_width] in *; lia
     |compute_anchors; lia]|]);
  constructor.


Section Further.
Context `{Backend}.


(** X1. The drawing loop, over any list of descriptors, from any world and
    however it ends, changes nothing but the pixels of the image its drawing
    context refers to, the count of font-loading attempts and the log: the
    environment, the descriptor list, the generator state, the files and
    standard output are as before, every other image is as before, every
    image keeps its mode, its size and the lengths of its rows, and the log
    is only extended. *)
Theorem loop_touches_only_canvas (d : ImageDraw.t) (bs : list book) (w : world) :
  w_env (for_in bs (spine d) w).2 = w_env w /\
  w_books (for_in bs (spine d) w).2 = w_books w /\
  w_random (for_in bs (spine d) w).2 = w_random w /\
  w_files (for_in bs (spine d) w).2 = w_files w /\
  w_stdout (for_in bs (spine d) w).2 = w_stdout w /\
  (forall h' : handle, h' <> ImageDraw.im d ->
     w_images (for_in bs (spine d) w).2 !! h' = w_images w !! h') /\
  (forall h' : handle,
     shape <$> w_images (for_in bs (spine d) w).2 !! h' =
     shape <$> w_images w !! h') /\
  (w_truetype_calls w <= w_truetype_calls (for_in bs (spine d) w).2)%nat /\
  (exists l, w_log (for_in bs (spine d) w).2 = w_log w ++ l).
Proof.
  exact (draws_only_for_in (ImageDraw.im d) bs (spine d) (draws_only_spine d) w).
Qed.





(** X6. With a rasteriser that paints only to the right of and below the
    anchor of a text, the left margin (columns 0 to 49) and the top margin
    (rows 0 to 99) of the final canvas still hold the background colour
    (245, 230, 211). *)
Theorem margins_stay_background (e : environment) (x y : Z) :
  (forall f s ink dx dy q, dx < 0 \/ dy < 0 -> text_ink f s ink dx dy q = q) ->
  0 <= x < 1200 -> 0 <= y < 800 ->
  x < 50 \/ y < 100 ->
  exists im, w_images (run e).2 = [im] /\ getpixel im x y = Some (245, 230, 211).
Proof.
  intros Hink Hx Hy Hmargin.
  exists (canvas e). split; [apply run_images|].
  unfold canvas. rewrite getpixel_paint_spines.
  rewrite getpixel_blank by (unfold width, height; simpl; lia).
  cbn [fmap option_fmap option_map]. f_equal.
  apply (paint_pixel_untouched e 0 books x y background Hink).
  unfold books.
  repeat (constructor;
          [split; [apply not_true_is_false; intros Hin%in_box_spec; simpl in Hin; lia
                  |match goal with
                   | |- context [text_x ?b] =>
                       let v := eval vm_compute in (text_x b) in
                       change (text_x b) with v
                   end; lia]|]).
  constructor.
Qed.

(** X7. When the write fails, its exception ends the run: the exit status is
    not 0, nothing has been written to standard output and [print] has not
    been called, the save call is the last thing logged, the canvas is the
    one a run with a successful write ends with, and the directory is the
    initial one except that the output name holds what the failed write
    left there, if anything. *)
Theorem write_failure (e : environment) (ex : exn) (residue : option file) :
  env_save e = Some (ex, residue) ->
  (run e).1 = Raise ex /\
  exit_code (run e).1 <> 0 /\
  w_stdout (run e).2 = "" /\
  prints_of (w_log (run e).2) = [] /\
  last (w_log (run e).2) = Some (ESave "test-bookshelf.jpg" JPEG 85) /\
  w_images (run e).2 = w_images (run (with_write_ok e)).2 /\
  w_files (run e).2 =
    match residue with
    | Some f => <["test-bookshelf.jpg" := f]> (env_files e)
    | None => env_files e
    end.
Proof.
  intros Hsave.
  assert (canvas e = canvas (with_write_ok e)) as Hcanvas
    by (unfold canvas; by apply paint_spines_agree).
  rewrite (run_images (with_write_ok e)).
  rewrite (run_save_fails e ex residue Hsave); cbn [fst snd]; world_simpl.
  split; [reflexivity|]. split; [done|]. split; [reflexivity|].
  split; [by rewrite prints_of_app, prints_of_draw_log|].
  split; [apply last_snoc|]. split; [by rewrite Hcanvas | reflexivity].
Qed.

(** X8. With a rasteriser that paints only to the right of and below the
    anchor of a text, every spine shows its own colour on the final canvas
    in the band above the title row (rows 100 to 149) and in the strip left
    of its text anchor: a pixel there, inside the rectangle of a descriptor,
    holds the parsed colour of that descriptor. *)
Theorem spine_shows_its_colour (e : environment) (i : nat) (b : book) (x y : Z) :
  (forall f s ink dx dy q, dx < 0 \/ dy < 0 -> text_ink f s ink dx dy q = q) ->
  books !! i = Some b ->
  in_box (book_x b, 100, book_x b + book_width b, 700) x y = true ->
  x < book_x b + book_width b `div` 2 - 5 \/ y < 150 ->
  exists im ink,
    w_images (run e).2 = [im] /\
    ImageColor.getrgb (book_color b) = Some ink /\
    getpixel im x y = Some ink.
Proof.
  intros Hink Hb Hin Hfar.
  change (book_x b + book_width b `div` 2 - 5) with (text_x b) in Hfar.
  change (book_x b, 100, book_x b + book_width b, 700) with (spine_box b) in Hin.
  exists (canvas e), (ink_of b).
  split; [apply run_images|].
  destruct i as [|[|[|[|[|i]]]]]; [..|done]; injection Hb as <-;
    (split; [vm_compute; reflexivity|]);
    pose proof Hin as Hxy; apply in_box_spec in Hxy;
    cbn [book_x book_width] in Hxy;
    unfold canvas; rewrite getpixel_paint_spines;
    (rewrite getpixel_blank by (unfold width, height; simpl; lia));
    cbn [fmap option_fmap option_map]; f_equal.
  - apply (paint_pixel_own_colour e 0 (take 0 books) _ (drop 1 books) x y _
             Hink Hin Hfar).
    unfold books; cbn [drop]. compute_anchors. later_spines_clear.
  - apply (paint_pixel_own_colour e 0 (take 1 books) _ (drop 2 books) x y _
             Hink Hin Hfar).
    unfold books; cbn [drop]. compute_anchors. later_spines_clear.
  - apply (paint_pixel_own_colour e 0 (take 2 books) _ (drop 3 books) x y _
             Hink Hin Hfar).
    unfold books; cbn [drop]. compute_anchors. later_spines_clear.
  - apply (paint_pixel_own_colour e 0 (take 3 books) _ (drop 4 books) x y _
             Hink Hin Hfar).
    unfold books; cbn [drop]. compute_anchors. later_spines_clear.
  - apply (paint_pixel_own_colour e 0 (take 4 books) _ (drop 5 books) x y _
             Hink Hin Hfar).
    unfold books; cbn [drop]. compute_anchors. later_spines_clear.
Qed.

End Further.

(** * Part VI: the further properties at concrete inputs *)





(** The block backend paints only right of and below the anchor. *)
Lemma block_backend_right_below f s ink dx dy q :
  dx < 0 \/ dy < 0 -> @text_ink block_backend f s ink dx dy q = q.
Proof.
  intros Hneg. cbn [text_ink block_backend].
  destruct (Z.leb_spec 0 dx), (Z.leb_spec 0 dy); try lia;
    destruct (dx <? _); reflexivity.
Qed.

(** A pixel of the top-left corner. *)
Lemma margins_stay_background_witness :
  (forall f s ink dx dy q,
     dx < 0 \/ dy < 0 -> @text_ink block_backend f s ink dx dy q = q) /\
  0 <= 10 < 1200 /\ 0 <= 10 < 800 /\ (10 < 50 \/ 10 < 100) /\
  exists im, w_images (@run block_backend no_font_env).2 = [im] /\
             getpixel im 10 10 = Some (245, 230, 211).
Proof.
  split; [exact block_backend_right_below|].
  split; [lia|]. split; [lia|]. split; [left; lia|].
  exact (@margins_stay_background block_backend no_font_env 10 10
           block_backend_right_below ltac:(lia) ltac:(lia) ltac:(left; lia)).
Defined.

(** A pixel of the first spine, left of its text anchor. *)
Lemma spine_shows_its_colour_witness :
  (forall f s ink dx dy q,
     dx < 0 \/ dy < 0 -> @text_ink block_backend f s ink dx dy q = q) /\
  books !! 0%nat = Some (Book "1984" "George Orwell" "#8B4513" 50 80) /\
  in_box (50, 100, 50 + 80, 700) 60 300 = true /\
  (60 < 50 + 80 `div` 2 - 5 \/ 300 < 150) /\
  exists im ink,
    w_images (@run block_backend no_font_env).2 = [im] /\
    ImageColor.getrgb "#8B4513" = Some ink /\
    getpixel im 60 300 = Some ink.
Proof.
  assert (60 < 50 + 80 `div` 2 - 5 \/ 300 < 150) as Hfar
    by (left; vm_compute; reflexivity).
  split; [exact block_backend_right_below|].
  split; [reflexivity|]. split; [reflexivity|]. split; [exact Hfar|].
  exact (@spine_shows_its_colour block_backend no_font_env 0
           (Book "1984" "George Orwell" "#8B4513" 50 80) 60 300
           block_backend_right_below eq_refl eq_refl Hfar).
Defined.

(** A host whose directory cannot be written and where the failed write
    leaves nothing behind. *)
Lemma write_failure_witness :
  env_save readonly_env = Some (OSError, None) /\
  (@run block_backend readonly_env).1 = Raise OSError /\
  exit_code (@run block_backend readonly_env).1 <> 0 /\
  w_stdout (@run block_backend readonly_env).2 = "" /\
  prints_of (w_log (@run block_backend readonly_env).2) = [] /\
  last (w_log (@run block_backend readonly_env).2) =
    Some (ESave "test-bookshelf.jpg" JPEG 85) /\
  w_images (@run block_backend readonly_env).2 =
    w_images (@run block_backend (with_write_ok readonly_env)).2 /\
  w_files (@run block_backend readonly_env).2 = env_files readonly_env.
Proof.
  split; [reflexivity|].
  exact (@write_failure block_backend readonly_env OSError None eq_refl).
Defined.
